(** * tambourine-voice: dictation pipeline processors and client protocol

    A shallow embedding of

    - [server/processors/transcription_buffer.py]
      ([TranscriptionBufferProcessor]),
    - [server/processors/llm_cleanup.py]
      ([TranscriptionToLLMConverter], [LLMResponseToRTVIConverter]),
    - [server/protocol/messages.py] ([parse_client_message]),

    followed by the properties of the buffering state machine, of the
    frame-conversion chain and of the forward-compatible parser.

    Conventions.  A Python [str] is the list of its Unicode code points.
    Python values that travel inside transport messages are the JSON
    values [pyval]; a [dict] is a finite map with string keys.  Every
    [process_frame] is a function from the processor's fields and the
    incoming frame to the new fields and the list of frames handed to
    [push_frame], in order.  The call [await super().process_frame(...)]
    at the head of every method belongs to the runtime: it neither reads
    nor writes the fields declared in these classes and pushes nothing,
    so it does not appear below. *)

From Stdlib Require Import NArith ZArith String Ascii List.
From stdpp Require Import base list gmap.

Set Warnings "-register-all".

(* ================================================================== *)
(** * Python strings and values *)
(* ================================================================== *)

Module Py.

(** A [str] is a sequence of code points. *)
Abbreviation str := (list N).

(** An ASCII literal of the source, as a [str]. *)
Definition lit (s : string) : str := N_of_ascii <$> list_ascii_of_string s.

(** [str.isspace] on one code point: the characters that [str.strip()]
    removes when called without argument. *)
Definition isspace (c : N) : bool :=
  ((9 <=? c) && (c <=? 13))%N
  || ((28 <=? c) && (c <=? 32))%N
  || (c =? 133)%N || (c =? 160)%N
  || (c =? 5760)%N
  || ((8192 <=? c) && (c <=? 8202))%N
  || (c =? 8232)%N || (c =? 8233)%N
  || (c =? 8239)%N || (c =? 8287)%N
  || (c =? 12288)%N.

Fixpoint lstrip (s : str) : str :=
  match s with
  | [] => []
  | c :: rest => if isspace c then lstrip rest else s
  end.

Definition rstrip (s : str) : str := rev (lstrip (rev s)).

(** [s.strip()] *)
Definition strip (s : str) : str := rstrip (lstrip s).

(** Truth value of a [str] in a condition: [if text:]. *)
Definition truthy (s : str) : bool :=
  match s with
  | [] => false
  | _ :: _ => true
  end.

(** JSON values.  Numbers are kept as integers: no function below
    distinguishes one number from another. *)
Inductive pyval :=
| PNone
| PBool (b : bool)
| PInt (z : Z)
| PStr (s : str)
| PList (l : list pyval)
| PDict (d : gmap str pyval).

(** [d.get(k, default)] *)
Definition dict_get (d : gmap str pyval) (k : str) (default : pyval) : pyval :=
  match d !! k with
  | Some v => v
  | None => default
  end.

(** [v == "literal"]: a value equals a string only when it is that
    string. *)
Definition eq_str (v : pyval) (s : str) : bool :=
  match v with
  | PStr t => bool_decide (t = s)
  | _ => false
  end.

End Py.

(* ================================================================== *)
(** * Frames of the runtime *)
(* ================================================================== *)

Module Frames.
Import Py.

Inductive FrameDirection := DOWNSTREAM | UPSTREAM.

(** [pipecat.transcriptions.language.Language] is a string enumeration;
    a member is kept as its tag. *)
Record Language := { language_tag : str }.

(** [OpenAILLMContext(messages=[...])] *)
Record OpenAILLMContext := { messages : list pyval }.

(** The frame classes the three processors test with [isinstance].
    [TranscriptionFrame] is a subclass of [TextFrame]; the constructor
    [TextFrame] stands for the instances of [TextFrame] that are not
    transcriptions.  [OtherFrame] stands for every remaining class. *)
Inductive Frame :=
| TextFrame (text : str)
| TranscriptionFrame (text user_id timestamp : str) (language : option Language)
| InputTransportMessageFrame (message : pyval)
| OutputTransportMessageFrame (message : pyval)
| LLMFullResponseStartFrame
| LLMFullResponseEndFrame
| OpenAILLMContextFrame (context : OpenAILLMContext)
| OtherFrame (name : str).

(** [isinstance(frame, TextFrame)], with the text it carries. *)
Definition as_TextFrame (frame : Frame) : option str :=
  match frame with
  | TextFrame text => Some text
  | TranscriptionFrame text _ _ _ => Some text
  | _ => None
  end.

(** [isinstance(frame, TranscriptionFrame)] *)
Definition is_TranscriptionFrame (frame : Frame) : bool :=
  match frame with
  | TranscriptionFrame _ _ _ _ => true
  | _ => false
  end.

(** What a call of [process_frame] hands to [push_frame], in order. *)
Abbreviation pushed := (list (Frame * FrameDirection)).

End Frames.

(* ================================================================== *)
(** * transcription_buffer.py *)
(* ================================================================== *)

Module TranscriptionBufferProcessor.
Import Py Frames.

Record t := {
  _buffer : str;
  _last_user_id : str;
  _last_language : option Language
}.

(** [__init__] *)
Definition init : t :=
  {| _buffer := []; _last_user_id := lit "user"; _last_language := None |}.

(** The message type read off a transport message payload (the block
    that assigns [message_type]). *)
Definition message_type (message : pyval) : pyval :=
  match message with
  | PDict m =>
      let outer_type := dict_get m (lit "type") PNone in
      if eq_str outer_type (lit "client-message") then
        match dict_get m (lit "data") (PDict ∅) with
        | PDict data => dict_get data (lit "t") PNone
        | _ => PNone
        end
      else outer_type
  | _ => PNone
  end.

(** [process_frame]; [now] is the reading of
    [datetime.now(UTC).isoformat()] during the call. *)
Definition process_frame (now : str) (self : t) (frame : Frame)
    (direction : FrameDirection) : t * pushed :=
  match frame with
  | TranscriptionFrame text user_id _ language =>
      if truthy text then
        ({| _buffer := _buffer self ++ text;
            _last_user_id := user_id;
            _last_language := language |}, [])
      else (self, [])
  | InputTransportMessageFrame message =>
      let mt := message_type message in
      if eq_str mt (lit "start-recording") then
        ({| _buffer := [];
            _last_user_id := lit "user";
            _last_language := None |}, [])
      else if eq_str mt (lit "stop-recording") then
        if truthy (strip (_buffer self)) then
          ({| _buffer := [];
              _last_user_id := _last_user_id self;
              _last_language := _last_language self |},
           [(TranscriptionFrame (strip (_buffer self)) (_last_user_id self)
               now (_last_language self), direction)])
        else (self, [])
      else (self, [(frame, direction)])
  | _ => (self, [(frame, direction)])
  end.

(** One delivery by the runtime: the frame, its direction and the clock
    reading at that moment. *)
Record delivery := {
  d_now : str;
  d_frame : Frame;
  d_direction : FrameDirection
}.

(** The runtime delivers frames one at a time, each processed to
    completion; the pushes are collected in order. *)
Fixpoint run (self : t) (ds : list delivery) : t * pushed :=
  match ds with
  | [] => (self, [])
  | d :: rest =>
      let '(self1, out1) := process_frame (d_now d) self (d_frame d) (d_direction d) in
      let '(self2, out2) := run self1 rest in
      (self2, out1 ++ out2)
  end.

End TranscriptionBufferProcessor.

(* ================================================================== *)
(** * llm_cleanup.py *)
(* ================================================================== *)

Module LLMCleanup.
Import Py.

Definition newline : str := [10%N].
Definition quote : str := [34%N].

(** The lines of a text, joined by a newline between consecutive lines. *)
Fixpoint join_lines (ls : list str) : str :=
  match ls with
  | [] => []
  | [l] => l
  | l :: rest => l ++ newline ++ join_lines rest
  end.

(** The module constant of the same name. *)
Definition CLEANUP_SYSTEM_PROMPT : str :=
  join_lines
    [ lit "You are a dictation cleanup assistant. Your task is to clean up transcribed speech.";
      [];
      lit "Rules:";
      lit "- Remove filler words (um, uh, like, you know, basically, actually, literally, sort of, kind of)";
      lit "- Fix grammar and punctuation";
      lit "- Capitalize sentences properly";
      lit "- Keep the original meaning and tone intact";
      lit "- Do NOT add any new information or change the intent";
      lit "- Output ONLY the cleaned text, nothing else - no explanations, no quotes, no prefixes";
      [];
      lit "Example:";
      lit "Input: " ++ quote
        ++ lit "um so basically I was like thinking we should uh you know update the readme file"
        ++ quote;
      lit "Output: I was thinking we should update the readme file." ].

End LLMCleanup.

Module TranscriptionToLLMConverter.
Import Py Frames LLMCleanup.

(** The context built for one transcript: the system prompt, then the
    transcript as the user's message. *)
Definition cleanup_context (text : str) : OpenAILLMContext :=
  {| messages :=
       [ PDict {[ lit "role" := PStr (lit "system");
                  lit "content" := PStr CLEANUP_SYSTEM_PROMPT ]};
         PDict {[ lit "role" := PStr (lit "user");
                  lit "content" := PStr text ]} ] |}.

(** [process_frame]; the class has no fields of its own. *)
Definition process_frame (frame : Frame) (direction : FrameDirection) : pushed :=
  match frame with
  | TranscriptionFrame text _ _ _ =>
      if truthy text && truthy (strip text) then
        [(OpenAILLMContextFrame (cleanup_context text), direction)]
      else []
  | _ => [(frame, direction)]
  end.

(** Frames delivered one after the other, pushes collected in order. *)
Definition run (ds : list (Frame * FrameDirection)) : pushed :=
  ds ≫= λ d, process_frame d.1 d.2.

End TranscriptionToLLMConverter.

Module LLMResponseToRTVIConverter.
Import Py Frames.

Record t := {
  _accumulator : str;
  _is_accumulating : bool
}.

(** [__init__] *)
Definition init : t := {| _accumulator := []; _is_accumulating := false |}.

(** The dictionary bound to [rtvi_message]. *)
Definition rtvi_message (cleaned_text : str) : pyval :=
  PDict {[ lit "label" := PStr (lit "rtvi-ai");
           lit "type" := PStr (lit "server-message");
           lit "data" := PDict {[ lit "type" := PStr (lit "transcript");
                                  lit "text" := PStr cleaned_text ]} ]}.

(** [process_frame] *)
Definition process_frame (self : t) (frame : Frame)
    (direction : FrameDirection) : t * pushed :=
  match frame with
  | LLMFullResponseStartFrame =>
      ({| _accumulator := []; _is_accumulating := true |}, [])
  | _ =>
      match as_TextFrame frame, _is_accumulating self with
      | Some text, true =>
          ({| _accumulator := _accumulator self ++ text;
              _is_accumulating := true |}, [])
      | _, _ =>
          match frame with
          | LLMFullResponseEndFrame =>
              let cleaned_text := strip (_accumulator self) in
              ({| _accumulator := []; _is_accumulating := false |},
               if truthy cleaned_text then
                 [(OutputTransportMessageFrame (rtvi_message cleaned_text), direction)]
               else [])
          | _ => (self, [(frame, direction)])
          end
      end
  end.

(** Frames delivered one after the other, pushes collected in order. *)
Fixpoint run (self : t) (ds : list (Frame * FrameDirection)) : t * pushed :=
  match ds with
  | [] => (self, [])
  | (frame, direction) :: rest =>
      let '(self1, out1) := process_frame self frame direction in
      let '(self2, out2) := run self1 rest in
      (self2, out1 ++ out2)
  end.

End LLMResponseToRTVIConverter.

(* ================================================================== *)
(** * protocol/messages.py *)
(* ================================================================== *)

Module Messages.
Import Py.

Inductive exn := ValidationError.

(** Outcome of a call that may raise. *)
Inductive result (A : Type) :=
| Return (a : A)
| Raise (e : exn).
Arguments Return {A} a.
Arguments Raise {A} e.

(** [SettingName], a string enumeration, with the value of each member. *)
Inductive SettingName := STT_PROVIDER | LLM_PROVIDER | PROMPT_SECTIONS | STT_TIMEOUT.

Definition SettingName_members : list SettingName :=
  [STT_PROVIDER; LLM_PROVIDER; PROMPT_SECTIONS; STT_TIMEOUT].

Definition SettingName_value (name : SettingName) : str :=
  match name with
  | STT_PROVIDER => lit "stt-provider"
  | LLM_PROVIDER => lit "llm-provider"
  | PROMPT_SECTIONS => lit "prompt-sections"
  | STT_TIMEOUT => lit "stt-timeout"
  end.

(** [SettingName(value)]: the first member, in declaration order, that
    has this value; [None] stands for the [ValueError] raised when no
    member has it. *)
Definition SettingName_of_value (value : str) : option SettingName :=
  find (λ name, bool_decide (SettingName_value name = value)) SettingName_members.

Section ClientMessages.

(** [protocol.providers] declares the two selection types; their
    validation is taken as given: [Some] for an accepted payload. *)
Variables STTProviderSelection LLMProviderSelection : Type.
Variable validate_STTProviderSelection : pyval -> option STTProviderSelection.
Variable validate_LLMProviderSelection : pyval -> option LLMProviderSelection.

Record SetSTTProviderData := { stt_provider : STTProviderSelection }.
Record SetLLMProviderData := { llm_provider : LLMProviderSelection }.

(** [_ClientMessageUnion]; the [type] field of each class is fixed by
    its [Literal] annotation and so by the constructor. *)
Inductive ClientMessageUnion :=
| StartRecordingMessage
| StopRecordingMessage
| SetSTTProviderMessage (data : SetSTTProviderData)
| SetLLMProviderMessage (data : SetLLMProviderData).

Record UnknownClientMessage := {
  type : str;
  raw : gmap str pyval
}.

(** The [type] field of a recognized message: the [Literal] its class
    declares. *)
Definition ClientMessageUnion_type (message : ClientMessageUnion) : str :=
  match message with
  | StartRecordingMessage => lit "start-recording"
  | StopRecordingMessage => lit "stop-recording"
  | SetSTTProviderMessage _ => lit "set-stt-provider"
  | SetLLMProviderMessage _ => lit "set-llm-provider"
  end.

(** Validation of the [data] field against [SetSTTProviderData]: a
    dictionary whose required field [provider] validates. *)
Definition validate_SetSTTProviderData (v : pyval) : option SetSTTProviderData :=
  match v with
  | PDict d =>
      match d !! lit "provider" with
      | Some p =>
          match validate_STTProviderSelection p with
          | Some sel => Some {| stt_provider := sel |}
          | None => None
          end
      | None => None
      end
  | _ => None
  end.

Definition validate_SetLLMProviderData (v : pyval) : option SetLLMProviderData :=
  match v with
  | PDict d =>
      match d !! lit "provider" with
      | Some p =>
          match validate_LLMProviderSelection p with
          | Some sel => Some {| llm_provider := sel |}
          | None => None
          end
      | None => None
      end
  | _ => None
  end.

(** [ClientMessage.model_validate(raw)] followed by [.root]: the union
    is discriminated on [type], so the tag selects the class first (a
    missing tag, a tag that is not a string and a tag that names no
    class are validation errors) and only that class's fields are then
    validated; fields a class does not declare are ignored. *)
Definition ClientMessage_model_validate (raw : gmap str pyval)
    : result ClientMessageUnion :=
  match raw !! lit "type" with
  | Some (PStr tag) =>
      if bool_decide (tag = lit "start-recording") then Return StartRecordingMessage
      else if bool_decide (tag = lit "stop-recording") then Return StopRecordingMessage
      else if bool_decide (tag = lit "set-stt-provider") then
        match raw !! lit "data" with
        | Some v =>
            match validate_SetSTTProviderData v with
            | Some data => Return (SetSTTProviderMessage data)
            | None => Raise ValidationError
            end
        | None => Raise ValidationError
        end
      else if bool_decide (tag = lit "set-llm-provider") then
        match raw !! lit "data" with
        | Some v =>
            match validate_SetLLMProviderData v with
            | Some data => Return (SetLLMProviderMessage data)
            | None => Raise ValidationError
            end
        | None => Raise ValidationError
        end
      else Raise ValidationError
  | _ => Raise ValidationError
  end.

(** [UnknownClientMessage(type=..., raw=...)]: the model declares
    [type: str], and validation of a [str] field accepts a string only;
    [raw: dict[str, Any]] accepts every dictionary with string keys and
    keeps its items. *)
Definition UnknownClientMessage_init (type_arg : pyval) (raw_arg : gmap str pyval)
    : result UnknownClientMessage :=
  match type_arg with
  | PStr s => Return {| type := s; raw := raw_arg |}
  | _ => Raise ValidationError
  end.

(** [parse_client_message] *)
Definition parse_client_message (raw : gmap str pyval)
    : result (ClientMessageUnion + UnknownClientMessage) :=
  match ClientMessage_model_validate raw with
  | Return root => Return (inl root)
  | Raise ValidationError =>
      match UnknownClientMessage_init (dict_get raw (lit "type") (PStr [])) raw with
      | Return unknown => Return (inr unknown)
      | Raise e => Raise e
      end
  end.

End ClientMessages.

Arguments StartRecordingMessage {_ _}.
Arguments StopRecordingMessage {_ _}.
Arguments SetSTTProviderMessage {_ _} data.
Arguments SetLLMProviderMessage {_ _} data.
Arguments parse_client_message {_ _} _ _ raw.
Arguments ClientMessage_model_validate {_ _} _ _ raw.
Arguments ClientMessageUnion_type {_ _} message.

End Messages.

(* ================================================================== *)
(** * Vocabulary of the statements *)
(* ================================================================== *)

Module Vocabulary.
Import Py Frames.

(** The text a fragment or chunk carries. *)
Definition text_of (frame : Frame) : str := default [] (as_TextFrame frame).

Definition user_id_of (frame : Frame) : str :=
  match frame with
  | TranscriptionFrame _ user_id _ _ => user_id
  | _ => []
  end.

Definition language_of (frame : Frame) : option Language :=
  match frame with
  | TranscriptionFrame _ _ _ language => language
  | _ => None
  end.

(** [F1.text + F2.text + ... + Fn.text] *)
Definition concat_texts (frames : list Frame) : str := concat (text_of <$> frames).

(** Speaker and language of the last fragment that was recorded, that
    is, of the last one with a non-empty text; the defaults of a reset
    buffer when there is none. *)
Definition last_recorded (frames : list Frame) : str * option Language :=
  match last (filter (λ f, text_of f ≠ []) frames) with
  | Some f => (user_id_of f, language_of f)
  | None => (lit "user", None)
  end.

(** A transport message carries the control signal [signal]. *)
Definition carries (message : pyval) (signal : str) : Prop :=
  TranscriptionBufferProcessor.message_type message = PStr signal.

(** The aggregator's invariant: when it is closed (not accumulating),
    its accumulator is the empty string. *)
Definition closed_is_empty (self : LLMResponseToRTVIConverter.t) : Prop :=
  LLMResponseToRTVIConverter._is_accumulating self = false →
  LLMResponseToRTVIConverter._accumulator self = [].

(** [isinstance(frame, InputTransportMessageFrame)] *)
Definition is_InputTransportMessageFrame (frame : Frame) : bool :=
  match frame with
  | InputTransportMessageFrame _ => true
  | _ => false
  end.

Definition is_OutputTransportMessageFrame (frame : Frame) : bool :=
  match frame with
  | OutputTransportMessageFrame _ => true
  | _ => false
  end.

(** A frame the buffer has no business with: neither a transcription
    nor an inbound transport message. *)
Definition buffer_bystander (frame : Frame) : bool :=
  negb (is_TranscriptionFrame frame) && negb (is_InputTransportMessageFrame frame).

(** The start and end markers of a response. *)
Definition is_marker (frame : Frame) : bool :=
  match frame with
  | LLMFullResponseStartFrame | LLMFullResponseEndFrame => true
  | _ => false
  end.

Definition is_start_marker (frame : Frame) : bool :=
  match frame with
  | LLMFullResponseStartFrame => true
  | _ => false
  end.

Definition is_end_marker (frame : Frame) : bool :=
  match frame with
  | LLMFullResponseEndFrame => true
  | _ => false
  end.

(** [isinstance(frame, TextFrame)] *)
Definition is_TextFrame (frame : Frame) : bool :=
  match as_TextFrame frame with
  | Some _ => true
  | None => false
  end.


(** A delivery as the pair that is pushed when it passes through. *)
Definition delivered (d : TranscriptionBufferProcessor.delivery)
    : Frame * FrameDirection :=
  (TranscriptionBufferProcessor.d_frame d, TranscriptionBufferProcessor.d_direction d).

End Vocabulary.

(* ================================================================== *)
(** * Sample inputs *)
(* ================================================================== *)

Module Samples.
Import Py Frames TranscriptionBufferProcessor.

Definition english : Language := {| language_tag := lit "en" |}.

(** [{"type": "client-message", "data": {"t": signal, "d": {}}}] *)
Definition nested_envelope (signal : str) : pyval :=
  PDict {[ lit "type" := PStr (lit "client-message");
           lit "data" := PDict {[ lit "t" := PStr signal;
                                  lit "d" := PDict ∅ ]} ]}.

(** [{"type": signal}] *)
Definition flat_envelope (signal : str) : pyval :=
  PDict {[ lit "type" := PStr signal ]}.

Definition fragment (text user_id : str) : delivery :=
  {| d_now := lit "t0";
     d_frame := TranscriptionFrame text user_id (lit "t0") (Some english);
     d_direction := DOWNSTREAM |}.

(** A buffer in mid-recording. *)
Definition busy_buffer (text : str) : t :=
  {| _buffer := text; _last_user_id := lit "bob"; _last_language := Some english |}.

(** A stand-in for the provider validation of [protocol.providers]:
    a provider is accepted when it is a string. *)
Definition string_provider (v : pyval) : option str :=
  match v with
  | PStr name => Some name
  | _ => None
  end.

End Samples.

(* ================================================================== *)
(** * Strings *)
(* ================================================================== *)

Import Py Frames Vocabulary Samples.

Lemma truthy_true (s : str) : truthy s = true ↔ s ≠ [].
Proof. destruct s; simpl; split; congruence. Qed.

Lemma truthy_false (s : str) : truthy s = false ↔ s = [].
Proof. destruct s; simpl; split; congruence. Qed.

Lemma strip_nil : strip [] = [].
Proof. reflexivity. Qed.

Lemma eq_str_true (v : pyval) (s : str) : eq_str v s = true ↔ v = PStr s.
Proof.
  destruct v; simpl; try (split; [discriminate | congruence]).
  rewrite bool_decide_eq_true. split; congruence.
Qed.

Lemma eq_str_PStr (s1 s2 : str) : s1 ≠ s2 → eq_str (PStr s1) s2 = false.
Proof. intros Hne. simpl. by apply bool_decide_eq_false. Qed.

Lemma start_is_not_stop : lit "stop-recording" ≠ lit "start-recording".
Proof. discriminate. Qed.

(* ================================================================== *)
(** * The transcription buffer *)
(* ================================================================== *)

Section Buffer.
Import TranscriptionBufferProcessor.

Lemma run_app (self : t) (ds1 ds2 : list delivery) :
  run self (ds1 ++ ds2)
  = let '(self1, out1) := run self ds1 in
    let '(self2, out2) := run self1 ds2 in
    (self2, out1 ++ out2).
Proof.
  revert self. induction ds1 as [|d ds1 IH]; intros self; simpl.
  - by destruct (run self ds2).
  - destruct (process_frame _ self _ _) as [self1 out1].
    rewrite IH. destruct (run self1 ds1) as [self2 out2].
    destruct (run self2 ds2) as [self3 out3]. by rewrite app_assoc.
Qed.

(** A stop signal, whatever the envelope that carries it. *)
Lemma process_stop now self message direction :
  carries message (lit "stop-recording") →
  process_frame now self (InputTransportMessageFrame message) direction
  = if truthy (strip (_buffer self)) then
      ({| _buffer := [];
          _last_user_id := _last_user_id self;
          _last_language := _last_language self |},
       [(TranscriptionFrame (strip (_buffer self)) (_last_user_id self) now
           (_last_language self), direction)])
    else (self, []).
Proof.
  unfold carries, process_frame. intros ->.
  by rewrite (eq_str_PStr _ _ start_is_not_stop).
Qed.

Lemma process_start now self message direction :
  carries message (lit "start-recording") →
  process_frame now self (InputTransportMessageFrame message) direction = (init, []).
Proof. unfold carries, process_frame. by intros ->. Qed.

(** Buffering a run of fragments: the texts are appended in order,
    nothing is pushed, and the metadata are those of the last fragment
    with a non-empty text (the previous ones when there is none). *)
Lemma run_fragments (self : t) (ds : list delivery) :
  Forall (λ d, is_TranscriptionFrame (d_frame d) = true) ds →
  run self ds
  = ({| _buffer := _buffer self ++ concat_texts (d_frame <$> ds);
        _last_user_id :=
          match last (filter (λ f, text_of f ≠ []) (d_frame <$> ds)) with
          | Some f => user_id_of f
          | None => _last_user_id self
          end;
        _last_language :=
          match last (filter (λ f, text_of f ≠ []) (d_frame <$> ds)) with
          | Some f => language_of f
          | None => _last_language self
          end |}, []).
Proof.
  intros Hall. revert self.
  induction Hall as [|d ds Hd _ IH]; intros self.
  - simpl. rewrite app_nil_r. by destruct self.
  - destruct d as [now frame direction]. simpl in Hd.
    destruct frame as [| text user_id ts language | | | | | |]; try discriminate.
    cbn [run d_now d_frame d_direction process_frame].
    destruct text as [|c text].
    + cbn [truthy]. rewrite IH. cbn [fmap list_fmap].
      rewrite filter_cons_False by (simpl; tauto). done.
    + cbn [truthy]. rewrite IH. cbn [fmap list_fmap].
      rewrite filter_cons_True by done. rewrite last_cons.
      cbn [_buffer _last_user_id _last_language app].
      unfold concat_texts. cbn [fmap list_fmap concat text_of as_TextFrame default].
      rewrite <- app_assoc.
      by destruct (last _).
Qed.

(** Some fragment was recorded as soon as the concatenation of the
    texts is not empty. *)
Lemma recorded_fragment_exists (frames : list Frame) :
  concat_texts frames ≠ [] →
  is_Some (last (filter (λ f, text_of f ≠ []) frames)).
Proof.
  induction frames as [|f frames IH]; [done|].
  unfold concat_texts. cbn [fmap list_fmap concat]. intros Hne.
  destruct (decide (text_of f = [])) as [Hnil | Htext].
  - rewrite filter_cons_False by tauto. apply IH.
    by rewrite Hnil in Hne.
  - rewrite filter_cons_True by done. rewrite last_cons.
    by destruct (last _).
Qed.

End Buffer.

Section BufferClaims.
Import TranscriptionBufferProcessor.

(** C1.  Fragments F1..Fn are delivered to a buffer whose text was just
    reset (by a start signal, by a flush, or at construction) and a
    stop-recording signal follows.  When the trimmed concatenation
    F1.text + ... + Fn.text is non-empty the buffer pushes exactly one
    transcription frame: its text is that trimmed concatenation, its
    speaker and language are the last recorded ones, its timestamp is
    the clock reading at the stop signal.  When the trimmed
    concatenation is empty nothing is pushed. *)
Theorem stop_emits_trimmed_concatenation
    (self : t) (ds : list delivery) (now : str) (message : pyval)
    (direction : FrameDirection) :
  _buffer self = [] →
  Forall (λ d, is_TranscriptionFrame (d_frame d) = true) ds →
  carries message (lit "stop-recording") →
  let stop := {| d_now := now;
                 d_frame := InputTransportMessageFrame message;
                 d_direction := direction |} in
  let text := strip (concat_texts (d_frame <$> ds)) in
  (text ≠ [] →
     snd (run self (ds ++ [stop]))
     = [(TranscriptionFrame text (last_recorded (d_frame <$> ds)).1 now
           (last_recorded (d_frame <$> ds)).2, direction)])
  ∧ (text = [] → snd (run self (ds ++ [stop])) = []).
Proof.
  intros Hreset Hall Hstop stop text.
  assert (Hrun : snd (run self (ds ++ [stop]))
                 = if truthy text then
                     [(TranscriptionFrame text
                         match last (filter (λ f, text_of f ≠ []) (d_frame <$> ds)) with
                         | Some f => user_id_of f
                         | None => _last_user_id self
                         end now
                         match last (filter (λ f, text_of f ≠ []) (d_frame <$> ds)) with
                         | Some f => language_of f
                         | None => _last_language self
                         end, direction)]
                   else []).
  { rewrite run_app, (run_fragments _ _ Hall).
    cbn [run d_now d_frame d_direction stop].
    rewrite (process_stop _ _ _ _ Hstop).
    cbn [_buffer _last_user_id _last_language]. rewrite Hreset. cbn [app].
    fold text. by destruct (truthy text). }
  split; intros Htext; rewrite Hrun.
  - assert (Hsome : is_Some (last (filter (λ f, text_of f ≠ []) (d_frame <$> ds)))).
    { apply recorded_fragment_exists. intros Hnil. apply Htext.
      unfold text. by rewrite Hnil. }
    destruct Hsome as [f Hf]. unfold last_recorded. rewrite Hf.
    apply truthy_true in Htext. by rewrite Htext.
  - apply truthy_false in Htext. by rewrite Htext.
Qed.

(** The scenario "um so ", "basically I was ", "thinking", then stop,
    after an earlier flush left another speaker recorded. *)
Lemma stop_emits_trimmed_concatenation_witness :
  snd (run (busy_buffer [])
         ([fragment (lit "um so ") (lit "alice");
           fragment (lit "basically I was ") (lit "dave");
           fragment (lit "thinking") (lit "carol")]
          ++ [{| d_now := lit "2026-01-01T00:00:00+00:00";
                 d_frame := InputTransportMessageFrame
                              (nested_envelope (lit "stop-recording"));
                 d_direction := DOWNSTREAM |}]))
  = [(TranscriptionFrame (lit "um so basically I was thinking") (lit "carol")
        (lit "2026-01-01T00:00:00+00:00") (Some english), DOWNSTREAM)].
Proof.
  apply (stop_emits_trimmed_concatenation (busy_buffer [])
           [fragment (lit "um so ") (lit "alice");
            fragment (lit "basically I was ") (lit "dave");
            fragment (lit "thinking") (lit "carol")]
           (lit "2026-01-01T00:00:00+00:00")
           (nested_envelope (lit "stop-recording")) DOWNSTREAM).
  - reflexivity.
  - repeat constructor.
  - reflexivity.
  - discriminate.
Defined.

(** C3, as the code has it.  A fragment with an empty text changes
    nothing and pushes nothing.  Every other fragment, a whitespace-only
    one included, has its text appended verbatim and its speaker and
    language recorded; nothing is pushed. *)
Theorem fragment_empty_or_appended
    (now : str) (self : t) (text user_id timestamp : str)
    (language : option Language) (direction : FrameDirection) :
  (text = [] →
     process_frame now self (TranscriptionFrame text user_id timestamp language) direction
     = (self, []))
  ∧ (text ≠ [] →
     process_frame now self (TranscriptionFrame text user_id timestamp language) direction
     = ({| _buffer := _buffer self ++ text;
           _last_user_id := user_id;
           _last_language := language |}, [])).
Proof.
  split; intros Htext; cbn [process_frame].
  - by rewrite (proj2 (truthy_false text) Htext).
  - by rewrite (proj2 (truthy_true text) Htext).
Qed.

Lemma fragment_empty_or_appended_witness :
  process_frame [] init (TranscriptionFrame [] (lit "bob") [] (Some english)) DOWNSTREAM
  = (init, [])
  ∧ process_frame [] init (TranscriptionFrame (lit "hi ") (lit "bob") [] (Some english))
      DOWNSTREAM
    = ({| _buffer := _buffer init ++ lit "hi ";
          _last_user_id := lit "bob";
          _last_language := Some english |}, []).
Proof.
  split.
  - apply (fragment_empty_or_appended [] init [] (lit "bob") [] (Some english) DOWNSTREAM).
    reflexivity.
  - apply (fragment_empty_or_appended [] init (lit "hi ") (lit "bob") [] (Some english)
             DOWNSTREAM).
    discriminate.
Defined.

(** C3, as the claim has it, fails: a fragment whose text is one space
    is whitespace-only, yet it is appended to the buffer and its speaker
    and language replace the recorded ones. *)
Lemma whitespace_fragment_is_buffered :
  strip (lit " ") = []
  ∧ process_frame [] init (TranscriptionFrame (lit " ") (lit "bob") [] (Some english))
      DOWNSTREAM
    = ({| _buffer := lit " ";
          _last_user_id := lit "bob";
          _last_language := Some english |}, [])
  ∧ fst (process_frame [] init
           (TranscriptionFrame (lit " ") (lit "bob") [] (Some english)) DOWNSTREAM)
    ≠ init.
Proof. split; [reflexivity | split; [reflexivity | discriminate]]. Qed.

End BufferClaims.

Section BufferSignals.
Import TranscriptionBufferProcessor.

(** C6.  The control signal of a transport message that is a dictionary:
    when the outer [type] is "client-message" and [data] is a
    dictionary, the signal is [data.get("t")]; when the outer [type] is
    anything else, the signal is the outer [type] itself.  The buffer
    acts on the signal so extracted.  A message whose signal is
    "start-recording" resets the buffer and is not pushed on.  A
    message whose signal is "stop-recording" is not pushed on either:
    it flushes the buffer, pushing the consolidated transcription and
    clearing the text, when the trimmed text is not empty, and does
    nothing otherwise.  A message whose signal is neither of the two
    leaves the buffer as it is and is pushed on unchanged, in the
    direction it came from. *)
Theorem signal_is_unwrapped_then_dispatched :
  (∀ m data : gmap str pyval,
     m !! lit "type" = Some (PStr (lit "client-message")) →
     m !! lit "data" = Some (PDict data) →
     message_type (PDict m) = dict_get data (lit "t") PNone)
  ∧ (∀ m : gmap str pyval,
     dict_get m (lit "type") PNone ≠ PStr (lit "client-message") →
     message_type (PDict m) = dict_get m (lit "type") PNone)
  ∧ (∀ (now : str) (self : t) (message : pyval) (direction : FrameDirection),
     carries message (lit "start-recording") →
     process_frame now self (InputTransportMessageFrame message) direction
     = ({| _buffer := []; _last_user_id := lit "user"; _last_language := None |}, []))
  ∧ (∀ (now : str) (self : t) (message : pyval) (direction : FrameDirection),
     carries message (lit "stop-recording") →
     (strip (_buffer self) ≠ [] →
        process_frame now self (InputTransportMessageFrame message) direction
        = ({| _buffer := [];
              _last_user_id := _last_user_id self;
              _last_language := _last_language self |},
           [(TranscriptionFrame (strip (_buffer self)) (_last_user_id self) now
               (_last_language self), direction)]))
     ∧ (strip (_buffer self) = [] →
        process_frame now self (InputTransportMessageFrame message) direction
        = (self, [])))
  ∧ (∀ (now : str) (self : t) (message : pyval) (direction : FrameDirection),
     ¬ carries message (lit "start-recording") →
     ¬ carries message (lit "stop-recording") →
     process_frame now self (InputTransportMessageFrame message) direction
     = (self, [(InputTransportMessageFrame message, direction)])).
Proof.
  split; [|split; [|split; [|split]]].
  - intros m data Htype Hdata. unfold message_type, dict_get.
    rewrite Htype, Hdata. reflexivity.
  - intros m Hne. unfold message_type.
    destruct (eq_str _ _) eqn:Heq; [|done].
    by apply eq_str_true in Heq.
  - intros now self message direction Hstart.
    by rewrite (process_start _ _ _ _ Hstart).
  - intros now self message direction Hstop.
    rewrite (process_stop _ _ _ _ Hstop). split; intros Htext.
    + apply truthy_true in Htext. by rewrite Htext.
    + apply truthy_false in Htext. by rewrite Htext.
  - intros now self message direction Hstart Hstop. unfold carries in *.
    cbn [process_frame].
    destruct (eq_str _ (lit "start-recording")) eqn:H1.
    { by apply eq_str_true in H1. }
    destruct (eq_str _ (lit "stop-recording")) eqn:H2.
    { by apply eq_str_true in H2. }
    reflexivity.
Qed.

Lemma signal_is_unwrapped_then_dispatched_witness :
  message_type (nested_envelope (lit "stop-recording"))
  = dict_get {[ lit "t" := PStr (lit "stop-recording"); lit "d" := PDict ∅ ]}
      (lit "t") PNone
  ∧ message_type (flat_envelope (lit "start-recording"))
    = dict_get {[ lit "type" := PStr (lit "start-recording") ]} (lit "type") PNone
  ∧ process_frame (lit "t1") (busy_buffer (lit "stale"))
      (InputTransportMessageFrame (nested_envelope (lit "start-recording"))) DOWNSTREAM
    = ({| _buffer := []; _last_user_id := lit "user"; _last_language := None |}, [])
  ∧ process_frame (lit "t1") (busy_buffer (lit " said so "))
      (InputTransportMessageFrame (nested_envelope (lit "stop-recording"))) DOWNSTREAM
    = ({| _buffer := [];
          _last_user_id := _last_user_id (busy_buffer (lit " said so "));
          _last_language := _last_language (busy_buffer (lit " said so ")) |},
       [(TranscriptionFrame (strip (_buffer (busy_buffer (lit " said so "))))
           (_last_user_id (busy_buffer (lit " said so "))) (lit "t1")
           (_last_language (busy_buffer (lit " said so "))), DOWNSTREAM)])
  ∧ process_frame (lit "t1") (busy_buffer (lit "  "))
      (InputTransportMessageFrame (flat_envelope (lit "stop-recording"))) DOWNSTREAM
    = (busy_buffer (lit "  "), [])
  ∧ process_frame [] init (InputTransportMessageFrame (flat_envelope (lit "ping")))
      UPSTREAM
    = (init, [(InputTransportMessageFrame (flat_envelope (lit "ping")), UPSTREAM)]).
Proof.
  destruct signal_is_unwrapped_then_dispatched
    as (Hnested & Hflat & Hstart & Hstop & Hother).
  split; [|split; [|split; [|split; [|split]]]].
  - apply Hnested; reflexivity.
  - apply Hflat. discriminate.
  - apply Hstart. reflexivity.
  - apply (Hstop (lit "t1") (busy_buffer (lit " said so "))); [reflexivity | discriminate].
  - apply (Hstop (lit "t1") (busy_buffer (lit "  "))); reflexivity.
  - apply Hother; discriminate.
Defined.

(** C8.  From every state of the buffer, one start-recording signal and
    two consecutive ones end in the same state, with the text empty and
    the speaker and language at their defaults, and push nothing. *)
Theorem start_recording_is_idempotent
    (self : t) (now1 now2 : str) (m1 m2 : pyval) (dir1 dir2 : FrameDirection) :
  carries m1 (lit "start-recording") →
  carries m2 (lit "start-recording") →
  let start1 := {| d_now := now1; d_frame := InputTransportMessageFrame m1;
                   d_direction := dir1 |} in
  let start2 := {| d_now := now2; d_frame := InputTransportMessageFrame m2;
                   d_direction := dir2 |} in
  run self [start1]
  = ({| _buffer := []; _last_user_id := lit "user"; _last_language := None |}, [])
  ∧ run self [start1; start2] = run self [start1].
Proof.
  intros H1 H2 start1 start2.
  cbn [run d_now d_frame d_direction start1 start2].
  rewrite (process_start _ _ _ _ H1), (process_start _ _ _ _ H2).
  split; reflexivity.
Qed.

Lemma start_recording_is_idempotent_witness :
  run (busy_buffer (lit "stale text"))
    [{| d_now := lit "t1";
        d_frame := InputTransportMessageFrame (nested_envelope (lit "start-recording"));
        d_direction := DOWNSTREAM |}]
  = ({| _buffer := []; _last_user_id := lit "user"; _last_language := None |}, [])
  ∧ run (busy_buffer (lit "stale text"))
      [{| d_now := lit "t1";
          d_frame := InputTransportMessageFrame (nested_envelope (lit "start-recording"));
          d_direction := DOWNSTREAM |};
       {| d_now := lit "t2";
          d_frame := InputTransportMessageFrame (flat_envelope (lit "start-recording"));
          d_direction := DOWNSTREAM |}]
    = run (busy_buffer (lit "stale text"))
        [{| d_now := lit "t1";
            d_frame := InputTransportMessageFrame (nested_envelope (lit "start-recording"));
            d_direction := DOWNSTREAM |}].
Proof.
  apply (start_recording_is_idempotent (busy_buffer (lit "stale text"))
           (lit "t1") (lit "t2")
           (nested_envelope (lit "start-recording"))
           (flat_envelope (lit "start-recording")) DOWNSTREAM DOWNSTREAM);
    reflexivity.
Defined.

(** C9.  A stop-recording signal that finds a buffer whose trimmed text
    is empty pushes nothing and leaves the text (whitespace included),
    the speaker and the language as they were. *)
Theorem stop_on_blank_buffer_keeps_state
    (now : str) (self : t) (message : pyval) (direction : FrameDirection) :
  carries message (lit "stop-recording") →
  strip (_buffer self) = [] →
  process_frame now self (InputTransportMessageFrame message) direction = (self, []).
Proof.
  intros Hstop Hblank. rewrite (process_stop _ _ _ _ Hstop).
  by rewrite Hblank.
Qed.

Lemma stop_on_blank_buffer_keeps_state_witness :
  process_frame (lit "t1") (busy_buffer (lit "   "))
    (InputTransportMessageFrame (flat_envelope (lit "stop-recording"))) DOWNSTREAM
  = (busy_buffer (lit "   "), []).
Proof.
  apply (stop_on_blank_buffer_keeps_state (lit "t1") (busy_buffer (lit "   "))
           (flat_envelope (lit "stop-recording")) DOWNSTREAM);
    reflexivity.
Defined.

End BufferSignals.

(* ================================================================== *)
(** * The cleanup request converter *)
(* ================================================================== *)

Section RequestConverter.
Import LLMCleanup TranscriptionToLLMConverter.

(** C7.  A transcription frame whose trimmed text is empty is dropped:
    nothing is pushed.  Any other transcription frame yields exactly one
    context frame whose messages are the fixed system prompt followed by
    the frame's text, untrimmed, as the user's message.  A frame of any
    other class is pushed on unchanged. *)
Theorem transcript_becomes_cleanup_request
    (text user_id timestamp : str) (language : option Language)
    (direction : FrameDirection) :
  (strip text = [] →
     process_frame (TranscriptionFrame text user_id timestamp language) direction = [])
  ∧ (strip text ≠ [] →
     process_frame (TranscriptionFrame text user_id timestamp language) direction
     = [(OpenAILLMContextFrame
           {| messages :=
                [ PDict {[ lit "role" := PStr (lit "system");
                           lit "content" := PStr CLEANUP_SYSTEM_PROMPT ]};
                  PDict {[ lit "role" := PStr (lit "user");
                           lit "content" := PStr text ]} ] |}, direction)])
  ∧ (∀ frame : Frame,
       is_TranscriptionFrame frame = false →
       process_frame frame direction = [(frame, direction)]).
Proof.
  split; [|split].
  - intros Hblank. cbn [process_frame]. rewrite Hblank. cbn [truthy].
    by rewrite andb_false_r.
  - intros Htext. cbn [process_frame].
    rewrite (proj2 (truthy_true _) Htext).
    destruct text as [|c text]; [by rewrite strip_nil in Htext|].
    reflexivity.
  - intros frame Hother. by destruct frame.
Qed.

Lemma transcript_becomes_cleanup_request_witness :
  process_frame (TranscriptionFrame (lit "  ") (lit "bob") (lit "t0") None) DOWNSTREAM = []
  ∧ process_frame (TranscriptionFrame (lit " um so hi ") (lit "bob") (lit "t0") None)
      DOWNSTREAM
    = [(OpenAILLMContextFrame
          {| messages :=
               [ PDict {[ lit "role" := PStr (lit "system");
                          lit "content" := PStr CLEANUP_SYSTEM_PROMPT ]};
                 PDict {[ lit "role" := PStr (lit "user");
                          lit "content" := PStr (lit " um so hi ") ]} ] |}, DOWNSTREAM)]
  ∧ process_frame (TextFrame (lit "chunk")) DOWNSTREAM
    = [(TextFrame (lit "chunk"), DOWNSTREAM)].
Proof.
  split; [|split].
  - apply (transcript_becomes_cleanup_request (lit "  ") (lit "bob") (lit "t0") None
             DOWNSTREAM).
    reflexivity.
  - apply (transcript_becomes_cleanup_request (lit " um so hi ") (lit "bob") (lit "t0")
             None DOWNSTREAM).
    discriminate.
  - apply (transcript_becomes_cleanup_request [] [] [] None DOWNSTREAM).
    reflexivity.
Defined.

End RequestConverter.

(* ================================================================== *)
(** * The cleanup response aggregator *)
(* ================================================================== *)

Section Aggregator.
Import LLMResponseToRTVIConverter.

Lemma closed_is_empty_init : closed_is_empty init.
Proof. by intros _. Qed.

Lemma closed_is_empty_step (self : t) (frame : Frame) (direction : FrameDirection) :
  closed_is_empty self → closed_is_empty (process_frame self frame direction).1.
Proof.
  unfold closed_is_empty. intros Hinv.
  destruct frame, (_is_accumulating self) eqn:Hacc; simpl; rewrite ?Hacc; simpl;
    auto; discriminate.
Qed.

Lemma closed_is_empty_run (self : t) (ds : list (Frame * FrameDirection)) :
  closed_is_empty self → closed_is_empty (run self ds).1.
Proof.
  revert self. induction ds as [|[frame direction] ds IH]; intros self Hinv; [done|].
  cbn [run].
  pose proof (closed_is_empty_step self frame direction Hinv) as Hstep.
  destruct (process_frame self frame direction) as [self1 out1].
  specialize (IH self1 Hstep).
  by destruct (run self1 ds).
Qed.

(** Chunks arriving while the aggregator is open are appended in order
    and never pushed. *)
Lemma run_chunks (acc : str) (chunks : list (Frame * FrameDirection)) :
  Forall (λ c, is_Some (as_TextFrame c.1)) chunks →
  run {| _accumulator := acc; _is_accumulating := true |} chunks
  = ({| _accumulator := acc ++ concat_texts (fst <$> chunks);
        _is_accumulating := true |}, []).
Proof.
  intros Hall. revert acc.
  induction Hall as [|[frame direction] chunks [text Htext] _ IH]; intros acc.
  - simpl. by rewrite app_nil_r.
  - simpl in Htext. cbn [run].
    assert (Hstep : process_frame {| _accumulator := acc; _is_accumulating := true |}
                      frame direction
                    = ({| _accumulator := acc ++ text; _is_accumulating := true |}, [])).
    { destruct frame; simpl in Htext; try discriminate; by simplify_eq. }
    rewrite Hstep, IH. unfold concat_texts, text_of.
    cbn [fmap list_fmap concat fst]. rewrite Htext. cbn [default].
    by rewrite app_assoc.
Qed.

Lemma aggregator_run_app (self : t) (ds1 ds2 : list (Frame * FrameDirection)) :
  run self (ds1 ++ ds2)
  = let '(self1, out1) := run self ds1 in
    let '(self2, out2) := run self1 ds2 in
    (self2, out1 ++ out2).
Proof.
  revert self. induction ds1 as [|[frame direction] ds1 IH]; intros self; simpl.
  - by destruct (run self ds2).
  - destruct (process_frame self frame direction) as [self1 out1].
    rewrite IH. destruct (run self1 ds1) as [self2 out2].
    destruct (run self2 ds2) as [self3 out3]. by rewrite app_assoc.
Qed.

End Aggregator.

Section AggregatorClaims.
Import LLMResponseToRTVIConverter.

(** C4.  A start marker, chunks C1..Cn and an end marker are delivered
    in this order, from any state of the aggregator.  When the trimmed
    concatenation C1.text + ... + Cn.text is non-empty, exactly one frame
    is pushed: the transport message
    [{label: "rtvi-ai", type: "server-message",
      data: {type: "transcript", text: <trimmed text>}}].
    When it is empty, nothing is pushed.  In both cases the aggregator
    ends with an empty accumulator, closed. *)
Theorem response_is_aggregated
    (self : t) (chunks : list (Frame * FrameDirection)) (dir0 dir1 : FrameDirection) :
  Forall (λ c, is_Some (as_TextFrame c.1)) chunks →
  let text := strip (concat_texts (fst <$> chunks)) in
  let response :=
    (LLMFullResponseStartFrame, dir0) :: chunks ++ [(LLMFullResponseEndFrame, dir1)] in
  (text ≠ [] →
     run self response
     = ({| _accumulator := []; _is_accumulating := false |},
        [(OutputTransportMessageFrame
            (PDict {[ lit "label" := PStr (lit "rtvi-ai");
                      lit "type" := PStr (lit "server-message");
                      lit "data" := PDict {[ lit "type" := PStr (lit "transcript");
                                             lit "text" := PStr text ]} ]}), dir1)]))
  ∧ (text = [] →
     run self response = ({| _accumulator := []; _is_accumulating := false |}, [])).
Proof.
  intros Hall text response.
  assert (Hrun : run self response
                 = ({| _accumulator := []; _is_accumulating := false |},
                    if truthy text then
                      [(OutputTransportMessageFrame (rtvi_message text), dir1)]
                    else [])).
  { unfold response. cbn [run process_frame].
    rewrite aggregator_run_app, (run_chunks _ _ Hall).
    cbn [run process_frame as_TextFrame _accumulator _is_accumulating app].
    by rewrite app_nil_r. }
  rewrite Hrun. split; intros Htext.
  - apply truthy_true in Htext. by rewrite Htext.
  - apply truthy_false in Htext. by rewrite Htext.
Qed.

(** The scenario "I was ", "thinking we should update the readme". *)
Lemma response_is_aggregated_witness :
  run init
    ((LLMFullResponseStartFrame, DOWNSTREAM)
     :: [(TextFrame (lit "I was "), DOWNSTREAM);
         (TextFrame (lit "thinking we should update the readme"), DOWNSTREAM)]
     ++ [(LLMFullResponseEndFrame, DOWNSTREAM)])
  = ({| _accumulator := []; _is_accumulating := false |},
     [(OutputTransportMessageFrame
         (PDict {[ lit "label" := PStr (lit "rtvi-ai");
                   lit "type" := PStr (lit "server-message");
                   lit "data" :=
                     PDict {[ lit "type" := PStr (lit "transcript");
                              lit "text" :=
                                PStr (lit "I was thinking we should update the readme") ]} ]}),
        DOWNSTREAM)]).
Proof.
  apply (response_is_aggregated init
           [(TextFrame (lit "I was "), DOWNSTREAM);
            (TextFrame (lit "thinking we should update the readme"), DOWNSTREAM)]
           DOWNSTREAM DOWNSTREAM).
  - repeat constructor; by eexists.
  - discriminate.
Defined.

(** C5.  In every state the aggregator can reach in which it is closed,
    an end marker pushes nothing and leaves the aggregator as it is:
    accumulator empty, still closed. *)
Theorem premature_end_is_a_noop
    (ds : list (Frame * FrameDirection)) (direction : FrameDirection) :
  _is_accumulating (run init ds).1 = false →
  process_frame (run init ds).1 LLMFullResponseEndFrame direction = ((run init ds).1, [])
  ∧ (run init ds).1 = {| _accumulator := []; _is_accumulating := false |}.
Proof.
  intros Hclosed.
  pose proof (closed_is_empty_run init ds closed_is_empty_init Hclosed) as Hacc.
  destruct (run init ds).1 as [acc open]. simpl in *. subst. done.
Qed.

Lemma premature_end_is_a_noop_witness :
  process_frame (run init [(TextFrame (lit "stray"), DOWNSTREAM)]).1
    LLMFullResponseEndFrame DOWNSTREAM
  = ((run init [(TextFrame (lit "stray"), DOWNSTREAM)]).1, [])
  ∧ (run init [(TextFrame (lit "stray"), DOWNSTREAM)]).1
    = {| _accumulator := []; _is_accumulating := false |}.
Proof.
  apply (premature_end_is_a_noop [(TextFrame (lit "stray"), DOWNSTREAM)] DOWNSTREAM).
  reflexivity.
Defined.

(** C10.  "Closed implies empty accumulator" is an invariant of the
    aggregator: it holds of the initial state, every call of
    [process_frame] preserves it whatever the frame, and so it holds
    after every sequence of frames. *)
Theorem closed_implies_empty_accumulator :
  closed_is_empty init
  ∧ (∀ (self : t) (frame : Frame) (direction : FrameDirection),
       closed_is_empty self → closed_is_empty (process_frame self frame direction).1)
  ∧ (∀ ds : list (Frame * FrameDirection), closed_is_empty (run init ds).1).
Proof.
  split; [|split].
  - exact closed_is_empty_init.
  - exact closed_is_empty_step.
  - intros ds. apply closed_is_empty_run, closed_is_empty_init.
Qed.

Lemma closed_implies_empty_accumulator_witness :
  closed_is_empty
    (process_frame {| _accumulator := lit " partial"; _is_accumulating := true |}
       LLMFullResponseEndFrame DOWNSTREAM).1.
Proof.
  apply (proj1 (proj2 closed_implies_empty_accumulator)
           {| _accumulator := lit " partial"; _is_accumulating := true |}
           LLMFullResponseEndFrame DOWNSTREAM).
  intros Hclosed. discriminate Hclosed.
Defined.

End AggregatorClaims.

(* ================================================================== *)
(** * The client message parser *)
(* ================================================================== *)

Section Parser.
Import Messages.

Context {STTProviderSelection LLMProviderSelection : Type}.
Context (validate_stt : pyval → option STTProviderSelection).
Context (validate_llm : pyval → option LLMProviderSelection).

Local Abbreviation parse := (parse_client_message validate_stt validate_llm).

(** A payload without [type], or whose [type] is a string, is always
    parsed: into a recognized message, or into the unknown message that
    carries that string (the empty string when [type] is absent) and
    the whole payload. *)
Lemma parse_client_message_string_type (raw : gmap str pyval) (tag : str) :
  dict_get raw (lit "type") (PStr []) = PStr tag →
  (∃ root, parse raw = Return (inl root))
  ∨ parse raw = Return (inr {| type := tag; raw := raw |}).
Proof.
  intros Htag. unfold parse_client_message.
  destruct (ClientMessage_model_validate _ _ raw) as [root | []].
  - left. by exists root.
  - right. by rewrite Htag.
Qed.

(** The scenario [{"type": "ping"}]. *)
Lemma parse_client_message_ping :
  parse {[ lit "type" := PStr (lit "ping") ]}
  = Return (inr {| type := lit "ping";
                   raw := {[ lit "type" := PStr (lit "ping") ]} |}).
Proof. reflexivity. Qed.

(** The empty payload. *)
Lemma parse_client_message_empty :
  parse ∅ = Return (inr {| type := []; raw := ∅ |}).
Proof. reflexivity. Qed.

(** A recognized payload. *)
Lemma parse_client_message_stop :
  parse {[ lit "type" := PStr (lit "stop-recording"); lit "extra" := PInt 1 ]}
  = Return (inl StopRecordingMessage).
Proof. reflexivity. Qed.

(** X12.  The parser raises exactly on the payloads whose [type] is
    present and is not a string. *)
Lemma parse_client_message_raises_iff (raw : gmap str pyval) :
  (∃ e, parse raw = Raise e)
  ↔ (∃ v, raw !! lit "type" = Some v ∧ ∀ tag, v ≠ PStr tag).
Proof.
  split.
  - intros [e He].
    destruct (raw !! lit "type") as [v|] eqn:Htype.
    + exists v. split; [done|]. intros tag ->.
      destruct (parse_client_message_string_type raw tag) as [[root Hroot] | Hunknown];
        [unfold dict_get; by rewrite Htype | congruence | congruence].
    + destruct (parse_client_message_string_type raw []) as [[root Hroot] | Hunknown];
        [unfold dict_get; by rewrite Htype | congruence | congruence].
  - intros (v & Hv & Hne). exists ValidationError.
    unfold parse_client_message, ClientMessage_model_validate, dict_get.
    rewrite Hv. destruct v; try reflexivity. by destruct (Hne s).
Qed.

(** C2, where the code departs from it.  The payloads [{"type": null}]
    and [{"type": 5}] are dictionaries, yet [parse_client_message]
    raises on them: validation against the recognized variants fails,
    and building the unknown message fails in turn because its [type]
    field accepts a string only. *)
Theorem parse_client_message_raises_on_non_string_type :
  parse {[ lit "type" := PNone ]} = Raise ValidationError
  ∧ parse {[ lit "type" := PInt 5 ]} = Raise ValidationError.
Proof. split; reflexivity. Qed.

End Parser.

(* ================================================================== *)
(** * More on trimming *)
(* ================================================================== *)

Lemma lstrip_idempotent (s : str) : lstrip (lstrip s) = lstrip s.
Proof.
  induction s as [|c s IH]; [done|]. simpl.
  destruct (isspace c) eqn:Hc; [done|]. simpl. by rewrite Hc.
Qed.

(** Stripping on the left keeps a last character that is not a space. *)
Lemma lstrip_snoc (s : str) (c : N) :
  isspace c = false → ∃ s', lstrip (s ++ [c]) = s' ++ [c].
Proof.
  intros Hc. induction s as [|a s IH]; simpl.
  - rewrite Hc. by exists [].
  - destruct (isspace a); [done|]. by exists (a :: s).
Qed.

Lemma lstrip_rstrip_lstrip (s : str) : lstrip (rstrip (lstrip s)) = rstrip (lstrip s).
Proof.
  assert (Hhead : lstrip s = [] ∨ ∃ c s', lstrip s = c :: s' ∧ isspace c = false).
  { induction s as [|c s IH]; [by left|]. simpl.
    destruct (isspace c) eqn:Hc; [done|]. right. by exists c, s. }
  destruct Hhead as [-> | (c & s' & -> & Hc)]; [done|].
  unfold rstrip. simpl rev.
  destruct (lstrip_snoc (rev s') c Hc) as [t ->].
  rewrite rev_app_distr. simpl. by rewrite Hc.
Qed.

Lemma rstrip_idempotent (s : str) : rstrip (rstrip s) = rstrip s.
Proof. unfold rstrip. by rewrite rev_involutive, lstrip_idempotent. Qed.

(** [s.strip().strip() == s.strip()] *)
Lemma strip_idempotent (s : str) : strip (strip s) = strip s.
Proof.
  unfold strip at 1 2. rewrite lstrip_rstrip_lstrip. apply rstrip_idempotent.
Qed.

(* ================================================================== *)
(** * The transcription buffer: edge cases, sequences, composition *)
(* ================================================================== *)

Section BufferSequences.
Import TranscriptionBufferProcessor.

Lemma stop_is_not_start : lit "start-recording" ≠ lit "stop-recording".
Proof. discriminate. Qed.



(** X2.  A start signal discards whatever was buffered: from every
    state, a start signal immediately followed by a stop signal pushes
    nothing and leaves the buffer reset. *)
Theorem start_then_stop_pushes_nothing
    (self : t) (now1 now2 : str) (m1 m2 : pyval) (dir1 dir2 : FrameDirection) :
  carries m1 (lit "start-recording") →
  carries m2 (lit "stop-recording") →
  run self [{| d_now := now1; d_frame := InputTransportMessageFrame m1;
               d_direction := dir1 |};
            {| d_now := now2; d_frame := InputTransportMessageFrame m2;
               d_direction := dir2 |}]
  = ({| _buffer := []; _last_user_id := lit "user"; _last_language := None |}, []).
Proof.
  intros Hstart Hstop. cbn [run d_now d_frame d_direction].
  rewrite (process_start _ _ _ _ Hstart), (process_stop _ _ _ _ Hstop).
  reflexivity.
Qed.

Lemma start_then_stop_pushes_nothing_witness :
  run (busy_buffer (lit "discarded words"))
    [{| d_now := lit "t1";
        d_frame := InputTransportMessageFrame (nested_envelope (lit "start-recording"));
        d_direction := DOWNSTREAM |};
     {| d_now := lit "t2";
        d_frame := InputTransportMessageFrame (nested_envelope (lit "stop-recording"));
        d_direction := DOWNSTREAM |}]
  = ({| _buffer := []; _last_user_id := lit "user"; _last_language := None |}, []).
Proof.
  apply (start_then_stop_pushes_nothing (busy_buffer (lit "discarded words")));
    reflexivity.
Defined.

(** X3.  A flush happens once: from every state, a second stop signal
    right after a first one pushes nothing more and changes nothing
    more. *)
Theorem second_stop_pushes_nothing
    (self : t) (now1 now2 : str) (m1 m2 : pyval) (dir1 dir2 : FrameDirection) :
  carries m1 (lit "stop-recording") →
  carries m2 (lit "stop-recording") →
  run self [{| d_now := now1; d_frame := InputTransportMessageFrame m1;
               d_direction := dir1 |};
            {| d_now := now2; d_frame := InputTransportMessageFrame m2;
               d_direction := dir2 |}]
  = run self [{| d_now := now1; d_frame := InputTransportMessageFrame m1;
                 d_direction := dir1 |}].
Proof.
  intros Hstop1 Hstop2. cbn [run d_now d_frame d_direction].
  rewrite (process_stop _ _ _ _ Hstop1).
  destruct (truthy (strip (_buffer self))) eqn:Hflush.
  - rewrite (process_stop _ _ _ _ Hstop2). reflexivity.
  - rewrite (process_stop _ _ _ _ Hstop2). by rewrite Hflush.
Qed.

Lemma second_stop_pushes_nothing_witness :
  run (busy_buffer (lit " hello "))
    [{| d_now := lit "t1";
        d_frame := InputTransportMessageFrame (flat_envelope (lit "stop-recording"));
        d_direction := DOWNSTREAM |};
     {| d_now := lit "t2";
        d_frame := InputTransportMessageFrame (nested_envelope (lit "stop-recording"));
        d_direction := DOWNSTREAM |}]
  = run (busy_buffer (lit " hello "))
      [{| d_now := lit "t1";
          d_frame := InputTransportMessageFrame (flat_envelope (lit "stop-recording"));
          d_direction := DOWNSTREAM |}].
Proof.
  apply (second_stop_pushes_nothing (busy_buffer (lit " hello "))); reflexivity.
Defined.

Lemma bystanders_of_step (now : str) (self : t) (frame : Frame)
    (direction : FrameDirection) :
  filter (λ p, buffer_bystander p.1 = true) (process_frame now self frame direction).2
  = filter (λ p, buffer_bystander p.1 = true) [(frame, direction)].
Proof.
  destruct frame; try reflexivity.
  - cbn [process_frame]. by destruct (truthy text).
  - cbn [process_frame].
    destruct (eq_str _ (lit "start-recording")); [done|].
    destruct (eq_str _ (lit "stop-recording")); [|done].
    by destruct (truthy _).
Qed.

(** X4.  The buffer is transparent to every frame that is neither a
    transcription nor an inbound transport message: over any sequence
    of deliveries, from any state, these frames come out unchanged, in
    the order and direction in which they came in. *)
Theorem buffer_passes_bystanders_in_order (self : t) (ds : list delivery) :
  filter (λ p, buffer_bystander p.1 = true) (run self ds).2
  = filter (λ p, buffer_bystander p.1 = true) (delivered <$> ds).
Proof.
  revert self. induction ds as [|d ds IH]; intros self; [done|].
  rewrite fmap_cons. cbn [run].
  pose proof (bystanders_of_step (d_now d) self (d_frame d) (d_direction d)) as Hstep.
  destruct (process_frame _ self _ _) as [self1 out1].
  specialize (IH self1). destruct (run self1 ds) as [self2 out2].
  cbn [snd] in *. rewrite filter_app, Hstep, IH.
  by rewrite <- filter_app.
Qed.

Lemma pushed_transcription_step
    (now : str) (self : t) (frame : Frame) (direction : FrameDirection)
    (text user_id timestamp : str) (language : option Language) (dir : FrameDirection) :
  (TranscriptionFrame text user_id timestamp language, dir)
    ∈ (process_frame now self frame direction).2 →
  text ≠ [] ∧ strip text = text.
Proof.
  destruct frame; cbn [process_frame snd];
    try (intros Hin; apply list_elem_of_singleton in Hin; discriminate).
  - destruct (truthy text0); intros Hin; by apply not_elem_of_nil in Hin.
  - destruct (eq_str _ (lit "start-recording")).
    { intros Hin; by apply not_elem_of_nil in Hin. }
    destruct (eq_str _ (lit "stop-recording")).
    + destruct (truthy (strip (_buffer self))) eqn:Hflush; cbn [snd]; intros Hin.
      * apply list_elem_of_singleton in Hin. simplify_eq.
        split; [by apply truthy_true | apply strip_idempotent].
      * by apply not_elem_of_nil in Hin.
    + intros Hin; apply list_elem_of_singleton in Hin; discriminate.
Qed.

Lemma pushed_transcription_run
    (self : t) (ds : list delivery)
    (text user_id timestamp : str) (language : option Language) (dir : FrameDirection) :
  (TranscriptionFrame text user_id timestamp language, dir) ∈ (run self ds).2 →
  text ≠ [] ∧ strip text = text.
Proof.
  revert self. induction ds as [|d ds IH]; intros self; cbn [run].
  - intros Hin. by apply not_elem_of_nil in Hin.
  - pose proof (pushed_transcription_step (d_now d) self (d_frame d) (d_direction d)
                  text user_id timestamp language dir) as Hstep.
    destruct (process_frame _ self _ _) as [self1 out1].
    specialize (IH self1). destruct (run self1 ds) as [self2 out2].
    cbn [snd] in *. intros [Hin | Hin]%elem_of_app; auto.
Qed.

(** X5.  Whatever is delivered to the buffer, from whatever state,
    every transcription frame it pushes carries a text that is not
    empty and has no whitespace left at either end; and the cleanup
    request converter turns each such frame into exactly one context
    frame whose user message is that text. *)
Theorem every_flush_becomes_one_request
    (self : t) (ds : list delivery)
    (text user_id timestamp : str) (language : option Language) (dir : FrameDirection) :
  (TranscriptionFrame text user_id timestamp language, dir) ∈ (run self ds).2 →
  text ≠ [] ∧ strip text = text
  ∧ TranscriptionToLLMConverter.process_frame
      (TranscriptionFrame text user_id timestamp language) dir
    = [(OpenAILLMContextFrame
          {| messages :=
               [ PDict {[ lit "role" := PStr (lit "system");
                          lit "content" := PStr LLMCleanup.CLEANUP_SYSTEM_PROMPT ]};
                 PDict {[ lit "role" := PStr (lit "user");
                          lit "content" := PStr text ]} ] |}, dir)].
Proof.
  intros Hin. destruct (pushed_transcription_run _ _ _ _ _ _ _ Hin) as [Hne Htrim].
  split; [done|]. split; [done|].
  cbn [TranscriptionToLLMConverter.process_frame]. rewrite Htrim.
  by rewrite (proj2 (truthy_true text) Hne).
Qed.

Lemma every_flush_becomes_one_request_witness :
  lit "hello" ≠ [] ∧ strip (lit "hello") = lit "hello"
  ∧ TranscriptionToLLMConverter.process_frame
      (TranscriptionFrame (lit "hello") (lit "bob") (lit "t1") (Some english)) DOWNSTREAM
    = [(OpenAILLMContextFrame
          {| messages :=
               [ PDict {[ lit "role" := PStr (lit "system");
                          lit "content" := PStr LLMCleanup.CLEANUP_SYSTEM_PROMPT ]};
                 PDict {[ lit "role" := PStr (lit "user");
                          lit "content" := PStr (lit "hello") ]} ] |}, DOWNSTREAM)].
Proof.
  apply (every_flush_becomes_one_request (busy_buffer (lit " hello "))
           [{| d_now := lit "t1";
               d_frame := InputTransportMessageFrame (flat_envelope (lit "stop-recording"));
               d_direction := DOWNSTREAM |}]).
  apply list_elem_of_singleton. reflexivity.
Defined.

End BufferSequences.

(* ================================================================== *)
(** * The request converter as a pipeline stage *)
(* ================================================================== *)

Section ConverterStage.
Import TranscriptionToLLMConverter.

Lemma converter_step_has_no_transcription (frame : Frame) (direction : FrameDirection) :
  Forall (λ p, is_TranscriptionFrame p.1 = false) (process_frame frame direction).
Proof.
  destruct frame; cbn [process_frame]; try (repeat constructor).
  destruct (truthy text && truthy (strip text)); repeat constructor.
Qed.

Lemma converter_run_without_transcription (ds : list (Frame * FrameDirection)) :
  Forall (λ p, is_TranscriptionFrame p.1 = false) ds → run ds = ds.
Proof.
  unfold run. induction 1 as [|[frame direction] ds Hframe _ IH]; [done|].
  cbn [mbind list_bind] in *. rewrite IH.
  by destruct frame.
Qed.

(** X6.  The request converter consumes every transcription frame: no
    sequence of deliveries makes it push one.  Hence a second converter
    placed behind the first changes nothing. *)
Theorem converter_consumes_transcriptions (ds : list (Frame * FrameDirection)) :
  Forall (λ p, is_TranscriptionFrame p.1 = false) (run ds)
  ∧ run (run ds) = run ds.
Proof.
  assert (Hnone : Forall (λ p, is_TranscriptionFrame p.1 = false) (run ds)).
  { unfold run. induction ds as [|[frame direction] ds IH]; [constructor|].
    cbn [mbind list_bind]. apply Forall_app. split; [|exact IH].
    apply converter_step_has_no_transcription. }
  split; [exact Hnone|]. by apply converter_run_without_transcription.
Qed.

End ConverterStage.

(* ================================================================== *)
(** * The response aggregator: sequences *)
(* ================================================================== *)

Section AggregatorSequences.
Import LLMResponseToRTVIConverter.

(** X7.  A start marker erases the past: whatever was delivered before
    it, from whatever state, the marker and the frames that follow it
    leave the state and push the frames that a freshly constructed
    aggregator does when it receives that same marker followed by those
    same frames; what was pushed before the marker comes first,
    unchanged.  A response that restarts in the middle therefore yields
    the text that follows the last start marker only. *)
Theorem start_marker_erases_history
    (self : t) (before after : list (Frame * FrameDirection)) (direction : FrameDirection) :
  run self (before ++ (LLMFullResponseStartFrame, direction) :: after)
  = ((run init ((LLMFullResponseStartFrame, direction) :: after)).1,
     (run self before).2
     ++ (run init ((LLMFullResponseStartFrame, direction) :: after)).2).
Proof.
  rewrite aggregator_run_app.
  destruct (run self before) as [self1 out1]. cbn [run process_frame snd].
  by destruct (run _ after).
Qed.

(** Between the markers: text is accumulated, everything else that is
    not a marker is pushed on. *)
Lemma run_open_body (acc : str) (body : list (Frame * FrameDirection)) :
  Forall (λ p, is_marker p.1 = false) body →
  run {| _accumulator := acc; _is_accumulating := true |} body
  = ({| _accumulator := acc ++ concat_texts (fst <$> filter (λ p, is_TextFrame p.1 = true) body);
        _is_accumulating := true |},
     filter (λ p, is_TextFrame p.1 = false) body).
Proof.
  intros Hall. revert acc.
  induction Hall as [|[frame direction] body Hframe _ IH]; intros acc.
  - simpl. by rewrite app_nil_r.
  - cbn [fst] in Hframe. cbn [run].
    destruct (as_TextFrame frame) as [text|] eqn:Htext.
    + assert (Hstep : process_frame {| _accumulator := acc; _is_accumulating := true |}
                        frame direction
                      = ({| _accumulator := acc ++ text; _is_accumulating := true |}, [])).
      { destruct frame; simpl in Htext; try discriminate; by simplify_eq. }
      rewrite Hstep, IH.
      rewrite filter_cons_True by (unfold is_TextFrame; simpl; by rewrite Htext).
      rewrite filter_cons_False
        by (unfold is_TextFrame; simpl; rewrite Htext; discriminate).
      unfold concat_texts, text_of. cbn [fmap list_fmap concat fst].
      rewrite Htext. cbn [default app]. by rewrite app_assoc.
    + assert (Hstep : process_frame {| _accumulator := acc; _is_accumulating := true |}
                        frame direction
                      = ({| _accumulator := acc; _is_accumulating := true |},
                         [(frame, direction)])).
      { destruct frame; simpl in Htext, Hframe; try discriminate; reflexivity. }
      rewrite Hstep, IH.
      rewrite filter_cons_False
        by (unfold is_TextFrame; simpl; rewrite Htext; discriminate).
      rewrite filter_cons_True by (unfold is_TextFrame; simpl; by rewrite Htext).
      reflexivity.
Qed.

(** X8.  Frames that arrive between the markers of a response and are
    neither text nor markers are pushed on unchanged, in order, and do
    not disturb the aggregation: the transcript, pushed after them, is
    the trimmed concatenation of the text frames alone; nothing but the
    bystanders is pushed when that is empty. *)
Theorem bystanders_do_not_disturb_response
    (self : t) (body : list (Frame * FrameDirection)) (dir0 dir1 : FrameDirection) :
  Forall (λ p, is_marker p.1 = false) body →
  let text :=
    strip (concat_texts (fst <$> filter (λ p, is_TextFrame p.1 = true) body)) in
  let response :=
    (LLMFullResponseStartFrame, dir0) :: body ++ [(LLMFullResponseEndFrame, dir1)] in
  (text ≠ [] →
     run self response
     = ({| _accumulator := []; _is_accumulating := false |},
        filter (λ p, is_TextFrame p.1 = false) body
        ++ [(OutputTransportMessageFrame (rtvi_message text), dir1)]))
  ∧ (text = [] →
     run self response
     = ({| _accumulator := []; _is_accumulating := false |},
        filter (λ p, is_TextFrame p.1 = false) body)).
Proof.
  intros Hall text response.
  assert (Hrun : run self response
                 = ({| _accumulator := []; _is_accumulating := false |},
                    filter (λ p, is_TextFrame p.1 = false) body
                    ++ if truthy text then
                         [(OutputTransportMessageFrame (rtvi_message text), dir1)]
                       else [])).
  { unfold response. cbn [run process_frame].
    rewrite aggregator_run_app, (run_open_body _ _ Hall).
    cbn [run process_frame as_TextFrame _accumulator _is_accumulating app].
    by rewrite app_nil_r. }
  rewrite Hrun. split; intros Htext.
  - apply truthy_true in Htext. by rewrite Htext.
  - apply truthy_false in Htext. rewrite Htext. by rewrite app_nil_r.
Qed.

Lemma bystanders_do_not_disturb_response_witness :
  run init
    ((LLMFullResponseStartFrame, DOWNSTREAM)
     :: [(TextFrame (lit " I was "), DOWNSTREAM);
         (OtherFrame (lit "MetricsFrame"), UPSTREAM);
         (TextFrame (lit "thinking "), DOWNSTREAM)]
     ++ [(LLMFullResponseEndFrame, DOWNSTREAM)])
  = ({| _accumulator := []; _is_accumulating := false |},
     filter (λ p, is_TextFrame p.1 = false)
       [(TextFrame (lit " I was "), DOWNSTREAM);
        (OtherFrame (lit "MetricsFrame"), UPSTREAM);
        (TextFrame (lit "thinking "), DOWNSTREAM)]
     ++ [(OutputTransportMessageFrame
            (rtvi_message
               (strip (concat_texts
                         (fst <$> filter (λ p, is_TextFrame p.1 = true)
                                    [(TextFrame (lit " I was "), DOWNSTREAM);
                                     (OtherFrame (lit "MetricsFrame"), UPSTREAM);
                                     (TextFrame (lit "thinking "), DOWNSTREAM)])))),
          DOWNSTREAM)]).
Proof.
  apply (bystanders_do_not_disturb_response init
           [(TextFrame (lit " I was "), DOWNSTREAM);
            (OtherFrame (lit "MetricsFrame"), UPSTREAM);
            (TextFrame (lit "thinking "), DOWNSTREAM)] DOWNSTREAM DOWNSTREAM).
  - repeat constructor.
  - discriminate.
Defined.

(** X9.  Without a start marker the aggregator never opens: delivered
    to a fresh aggregator, a sequence that contains no start marker is
    pushed on unchanged and in order, text frames included, except for
    the end markers, which are swallowed; no transcript is pushed and
    the aggregator stays as constructed. *)
Theorem closed_aggregator_is_transparent (ds : list (Frame * FrameDirection)) :
  Forall (λ p, is_start_marker p.1 = false) ds →
  run init ds = (init, filter (λ p, is_end_marker p.1 = false) ds).
Proof.
  induction 1 as [|[frame direction] ds Hframe _ IH]; [done|].
  cbn [fst] in Hframe.
  assert (Hstep : process_frame init frame direction
                  = (init, filter (λ p, is_end_marker p.1 = false) [(frame, direction)])).
  { by destruct frame. }
  cbn [run]. rewrite Hstep, IH.
  change ((frame, direction) :: ds) with ([(frame, direction)] ++ ds).
  by rewrite filter_app.
Qed.

Lemma closed_aggregator_is_transparent_witness :
  run init [(TextFrame (lit "stray"), DOWNSTREAM);
            (LLMFullResponseEndFrame, DOWNSTREAM);
            (OtherFrame (lit "EndFrame"), DOWNSTREAM)]
  = (init, filter (λ p, is_end_marker p.1 = false)
             [(TextFrame (lit "stray"), DOWNSTREAM);
              (LLMFullResponseEndFrame, DOWNSTREAM);
              (OtherFrame (lit "EndFrame"), DOWNSTREAM)]).
Proof.
  apply (closed_aggregator_is_transparent
           [(TextFrame (lit "stray"), DOWNSTREAM);
            (LLMFullResponseEndFrame, DOWNSTREAM);
            (OtherFrame (lit "EndFrame"), DOWNSTREAM)]).
  repeat constructor.
Defined.

Lemma aggregator_step_pushes_no_marker (self : t) (frame : Frame)
    (direction : FrameDirection) :
  Forall (λ p, is_marker p.1 = false) (process_frame self frame direction).2.
Proof.
  destruct frame, (_is_accumulating self) eqn:Hopen;
    simpl; rewrite ?Hopen; simpl; repeat constructor.
  all: destruct (truthy _); repeat constructor.
Qed.

(** X10.  The markers never leave the aggregator: whatever is delivered,
    from whatever state, no start marker and no end marker is among the
    frames it pushes. *)
Theorem markers_are_never_pushed (self : t) (ds : list (Frame * FrameDirection)) :
  Forall (λ p, is_marker p.1 = false) (run self ds).2.
Proof.
  revert self. induction ds as [|[frame direction] ds IH]; intros self; [constructor|].
  cbn [run].
  pose proof (aggregator_step_pushes_no_marker self frame direction) as Hstep.
  destruct (process_frame self frame direction) as [self1 out1].
  specialize (IH self1). destruct (run self1 ds) as [self2 out2].
  cbn [snd] in *. apply Forall_app. by split.
Qed.

Lemma transcript_step
    (self : t) (frame : Frame) (direction : FrameDirection)
    (message : pyval) (dir : FrameDirection) :
  is_OutputTransportMessageFrame frame = false →
  (OutputTransportMessageFrame message, dir) ∈ (process_frame self frame direction).2 →
  ∃ text, message = rtvi_message text ∧ text ≠ [] ∧ strip text = text.
Proof.
  intros Hframe.
  destruct frame, (_is_accumulating self) eqn:Hopen; try discriminate;
    simpl; rewrite ?Hopen; simpl;
    try (intros Hin; by apply not_elem_of_nil in Hin);
    try (intros Hin; apply list_elem_of_singleton in Hin; discriminate).
  all: destruct (truthy (strip (_accumulator self))) eqn:Htext; intros Hin;
    [|by apply not_elem_of_nil in Hin].
  all: apply list_elem_of_singleton in Hin; simplify_eq;
    exists (strip (_accumulator self));
    split; [done | split; [by apply truthy_true | apply strip_idempotent]].
Qed.

(** X11.  As long as no outbound transport message is delivered to the
    aggregator, every one it pushes is a transcript envelope whose text
    is not empty and has no whitespace left at either end. *)
Theorem pushed_messages_are_trimmed_transcripts
    (self : t) (ds : list (Frame * FrameDirection))
    (message : pyval) (dir : FrameDirection) :
  Forall (λ p, is_OutputTransportMessageFrame p.1 = false) ds →
  (OutputTransportMessageFrame message, dir) ∈ (run self ds).2 →
  ∃ text, message = rtvi_message text ∧ text ≠ [] ∧ strip text = text.
Proof.
  intros Hall. revert self.
  induction Hall as [|[frame direction] ds Hframe _ IH]; intros self; cbn [run].
  - intros Hin. by apply not_elem_of_nil in Hin.
  - pose proof (transcript_step self frame direction message dir Hframe) as Hstep.
    destruct (process_frame self frame direction) as [self1 out1].
    specialize (IH self1). destruct (run self1 ds) as [self2 out2].
    cbn [snd] in *. intros [Hin | Hin]%elem_of_app; auto.
Qed.

Lemma pushed_messages_are_trimmed_transcripts_witness :
  ∃ text, rtvi_message (lit "done.") = rtvi_message text
          ∧ text ≠ [] ∧ strip text = text.
Proof.
  apply (pushed_messages_are_trimmed_transcripts init
           [(LLMFullResponseStartFrame, DOWNSTREAM);
            (TextFrame (lit " done. "), DOWNSTREAM);
            (LLMFullResponseEndFrame, DOWNSTREAM)]
           (rtvi_message (lit "done.")) DOWNSTREAM).
  - repeat constructor.
  - apply list_elem_of_singleton. reflexivity.
Defined.

End AggregatorSequences.

(* ================================================================== *)
(** * The client message parser: outcomes *)
(* ================================================================== *)

Section ParserOutcomes.
Import Messages.

Context {STTProviderSelection LLMProviderSelection : Type}.
Context (validate_stt : pyval → option STTProviderSelection).
Context (validate_llm : pyval → option LLMProviderSelection).

Local Abbreviation parse := (parse_client_message validate_stt validate_llm).
Local Abbreviation validate := (ClientMessage_model_validate validate_stt validate_llm).

(** The class selected by validation is the one the payload's [type]
    names. *)
Lemma validated_type (raw : gmap str pyval)
    (root : ClientMessageUnion STTProviderSelection LLMProviderSelection) :
  validate raw = Return root →
  raw !! lit "type" = Some (PStr (ClientMessageUnion_type root)).
Proof.
  unfold ClientMessage_model_validate.
  destruct (raw !! lit "type") as [[ | | | tag | | ]|]; try discriminate.
  repeat case_bool_decide; subst;
    repeat match goal with
      | |- context [match ?x with _ => _ end] => destruct x
      end; intros Heq; simplify_eq; reflexivity.
Qed.

Lemma parse_recognized (raw : gmap str pyval)
    (root : ClientMessageUnion STTProviderSelection LLMProviderSelection) :
  parse raw = Return (inl root) ↔ validate raw = Return root.
Proof.
  unfold parse_client_message.
  destruct (validate raw) as [root' | []].
  - split; intros Heq; by simplify_eq.
  - split; [|discriminate].
    destruct (UnknownClientMessage_init _ raw); discriminate.
Qed.

(** X13.  Whatever the parser returns carries the payload's own [type]:
    a recognized message is of the class that [type] names, and an
    unknown message holds that [type] (the empty string when the
    payload has none) together with the whole payload. *)
Theorem parsed_message_keeps_type_and_payload (raw : gmap str pyval) :
  (∀ root, parse raw = Return (inl root) →
     raw !! lit "type" = Some (PStr (ClientMessageUnion_type root)))
  ∧ (∀ unknown, parse raw = Return (inr unknown) →
       dict_get raw (lit "type") (PStr []) = PStr (Messages.type unknown)
       ∧ Messages.raw unknown = raw).
Proof.
  split.
  - intros root Hparse. by apply validated_type, parse_recognized.
  - intros unknown. unfold parse_client_message.
    destruct (validate raw) as [root | []]; [discriminate|].
    unfold UnknownClientMessage_init.
    destruct (dict_get raw (lit "type") (PStr [])); try discriminate.
    intros Heq. by simplify_eq.
Qed.

(** X14.  The two recording messages carry no payload of their own, so
    nothing in the rest of the dictionary can get them rejected: a
    payload parses to the start (stop) message exactly when its [type]
    is the string "start-recording" ("stop-recording"). *)
Theorem recording_messages_are_recognized_by_type_alone (raw : gmap str pyval) :
  (parse raw = Return (inl StartRecordingMessage)
   ↔ raw !! lit "type" = Some (PStr (lit "start-recording")))
  ∧ (parse raw = Return (inl StopRecordingMessage)
     ↔ raw !! lit "type" = Some (PStr (lit "stop-recording"))).
Proof.
  split; (split; [intros Hparse; by apply parse_recognized, validated_type in Hparse|]);
    intros Htype; unfold parse_client_message, ClientMessage_model_validate;
    rewrite Htype; reflexivity.
Qed.

(** X15.  A payload whose [type] is "set-stt-provider" parses to the
    provider message exactly when its [data] is a dictionary whose
    [provider] validates, and then carries the validated provider; in
    every other case it is folded into the unknown message with that
    type and the whole payload, and never into another class.  The
    same holds of "set-llm-provider". *)
Theorem provider_message_or_unknown (raw : gmap str pyval) :
  (raw !! lit "type" = Some (PStr (lit "set-stt-provider")) →
     (∀ selection,
        parse raw = Return (inl (SetSTTProviderMessage {| stt_provider := selection |}))
        ↔ ∃ data provider,
            raw !! lit "data" = Some (PDict data)
            ∧ data !! lit "provider" = Some provider
            ∧ validate_stt provider = Some selection)
     ∧ ((∃ message, parse raw = Return (inl (SetSTTProviderMessage message)))
        ∨ parse raw = Return (inr {| type := lit "set-stt-provider"; raw := raw |})))
  ∧ (raw !! lit "type" = Some (PStr (lit "set-llm-provider")) →
     (∀ selection,
        parse raw = Return (inl (SetLLMProviderMessage {| llm_provider := selection |}))
        ↔ ∃ data provider,
            raw !! lit "data" = Some (PDict data)
            ∧ data !! lit "provider" = Some provider
            ∧ validate_llm provider = Some selection)
     ∧ ((∃ message, parse raw = Return (inl (SetLLMProviderMessage message)))
        ∨ parse raw = Return (inr {| type := lit "set-llm-provider"; raw := raw |}))).
Proof.
  split; intros Htype.
  - assert (Hshape :
      validate raw
      = match raw !! lit "data" with
        | Some v =>
            match validate_SetSTTProviderData _ validate_stt v with
            | Some data => Return (SetSTTProviderMessage data)
            | None => Raise ValidationError
            end
        | None => Raise ValidationError
        end).
    { unfold ClientMessage_model_validate. by rewrite Htype. }
    split.
    + intros selection. rewrite parse_recognized, Hshape. split.
      * destruct (raw !! lit "data") as [[ | | | | | data]|]; simpl; try discriminate.
        destruct (data !! lit "provider") as [provider|] eqn:Hprovider; [|discriminate].
        destruct (validate_stt provider) as [sel|] eqn:Hsel; [|discriminate].
        intros Heq. simplify_eq. by exists data, provider.
      * intros (data & provider & -> & Hprovider & Hsel). simpl.
        by rewrite Hprovider, Hsel.
    + unfold parse_client_message. rewrite Hshape.
      destruct (raw !! lit "data") as [v|].
      * destruct (validate_SetSTTProviderData _ validate_stt v) as [data|].
        -- left. by exists data.
        -- right. unfold dict_get. by rewrite Htype.
      * right. unfold dict_get. by rewrite Htype.
  - assert (Hshape :
      validate raw
      = match raw !! lit "data" with
        | Some v =>
            match validate_SetLLMProviderData _ validate_llm v with
            | Some data => Return (SetLLMProviderMessage data)
            | None => Raise ValidationError
            end
        | None => Raise ValidationError
        end).
    { unfold ClientMessage_model_validate. by rewrite Htype. }
    split.
    + intros selection. rewrite parse_recognized, Hshape. split.
      * destruct (raw !! lit "data") as [[ | | | | | data]|]; simpl; try discriminate.
        destruct (data !! lit "provider") as [provider|] eqn:Hprovider; [|discriminate].
        destruct (validate_llm provider) as [sel|] eqn:Hsel; [|discriminate].
        intros Heq. simplify_eq. by exists data, provider.
      * intros (data & provider & -> & Hprovider & Hsel). simpl.
        by rewrite Hprovider, Hsel.
    + unfold parse_client_message. rewrite Hshape.
      destruct (raw !! lit "data") as [v|].
      * destruct (validate_SetLLMProviderData _ validate_llm v) as [data|].
        -- left. by exists data.
        -- right. unfold dict_get. by rewrite Htype.
      * right. unfold dict_get. by rewrite Htype.
Qed.

(** X16.  The buffer and the parser agree on flat envelopes and part
    ways on nested ones.  For a dictionary whose [type] is not
    "client-message", the buffer reads a start (stop) signal exactly
    when the parser returns the start (stop) message.  A dictionary
    whose [type] is "client-message", the envelope the buffer unwraps,
    is an unknown message to the parser, whatever it wraps. *)
Theorem buffer_and_parser_on_envelopes (m : gmap str pyval) :
  (m !! lit "type" ≠ Some (PStr (lit "client-message")) →
     (carries (PDict m) (lit "start-recording")
      ↔ parse m = Return (inl StartRecordingMessage))
     ∧ (carries (PDict m) (lit "stop-recording")
        ↔ parse m = Return (inl StopRecordingMessage)))
  ∧ (m !! lit "type" = Some (PStr (lit "client-message")) →
     parse m = Return (inr {| type := lit "client-message"; raw := m |})).
Proof.
  split.
  - intros Hflat.
    assert (Hsignal : TranscriptionBufferProcessor.message_type (PDict m)
                      = dict_get m (lit "type") PNone).
    { unfold TranscriptionBufferProcessor.message_type.
      destruct (eq_str _ (lit "client-message")) eqn:Heq; [|done].
      apply eq_str_true in Heq. unfold dict_get in Heq.
      destruct (m !! lit "type"); [by simplify_eq | discriminate]. }
    unfold carries. rewrite Hsignal. unfold dict_get.
    split; split.
    1, 3: destruct (m !! lit "type") as [v|] eqn:Htype; [|discriminate];
      intros ->; unfold parse_client_message, ClientMessage_model_validate;
      rewrite Htype; reflexivity.
    all: intros Hparse; apply parse_recognized, validated_type in Hparse;
      by rewrite Hparse.
  - intros Hnested.
    unfold parse_client_message, ClientMessage_model_validate, dict_get.
    rewrite Hnested. reflexivity.
Qed.

End ParserOutcomes.

Section ParserWitnesses.
Import Messages.

Lemma parse_client_message_raises_iff_witness :
  ∃ e, parse_client_message string_provider string_provider
         {[ lit "type" := PList []; lit "data" := PDict ∅ ]} = Raise e.
Proof.
  apply (parse_client_message_raises_iff string_provider string_provider
           {[ lit "type" := PList []; lit "data" := PDict ∅ ]}).
  exists (PList []). split; [reflexivity | discriminate].
Defined.

Lemma parsed_message_keeps_type_and_payload_witness :
  dict_get {[ lit "type" := PStr (lit "ping") ]} (lit "type") (PStr [])
  = PStr (type {| type := lit "ping"; raw := {[ lit "type" := PStr (lit "ping") ]} |})
  ∧ raw {| type := lit "ping"; raw := {[ lit "type" := PStr (lit "ping") ]} |}
    = {[ lit "type" := PStr (lit "ping") ]}.
Proof.
  apply (parsed_message_keeps_type_and_payload string_provider string_provider
           {[ lit "type" := PStr (lit "ping") ]}).
  reflexivity.
Defined.

Lemma recording_messages_are_recognized_by_type_alone_witness :
  parse_client_message string_provider string_provider
    {[ lit "type" := PStr (lit "start-recording"); lit "data" := PInt 7 ]}
  = Return (inl StartRecordingMessage).
Proof.
  apply (recording_messages_are_recognized_by_type_alone string_provider string_provider
           {[ lit "type" := PStr (lit "start-recording"); lit "data" := PInt 7 ]}).
  reflexivity.
Defined.

Lemma provider_message_or_unknown_witness :
  parse_client_message string_provider string_provider
    {[ lit "type" := PStr (lit "set-stt-provider");
       lit "data" := PDict {[ lit "provider" := PStr (lit "groq") ]} ]}
  = Return (inl (SetSTTProviderMessage {| stt_provider := lit "groq" |})).
Proof.
  apply (proj1 (provider_message_or_unknown string_provider string_provider
                  {[ lit "type" := PStr (lit "set-stt-provider");
                     lit "data" := PDict {[ lit "provider" := PStr (lit "groq") ]} ]})).
  - reflexivity.
  - exists {[ lit "provider" := PStr (lit "groq") ]}, (PStr (lit "groq")).
    split; [reflexivity | split; reflexivity].
Defined.

Lemma buffer_and_parser_on_envelopes_witness :
  parse_client_message string_provider string_provider
    {[ lit "type" := PStr (lit "stop-recording") ]}
  = Return (inl StopRecordingMessage).
Proof.
  apply (proj1 (buffer_and_parser_on_envelopes string_provider string_provider
                  {[ lit "type" := PStr (lit "stop-recording") ]})).
  - discriminate.
  - reflexivity.
Defined.

(** X17.  No member of [SettingName] is an alias of another: looking a
    member's value up gives that member back, and a value that is found
    is the value of the member returned. *)
Theorem SettingName_value_round_trip :
  (∀ name, SettingName_of_value (SettingName_value name) = Some name)
  ∧ (∀ value name, SettingName_of_value value = Some name →
       SettingName_value name = value).
Proof.
  split.
  - intros []; reflexivity.
  - intros value name. unfold SettingName_of_value, SettingName_members.
    cbn [find]. repeat case_bool_decide; intros Heq; by simplify_eq.
Qed.

Lemma SettingName_value_round_trip_witness :
  SettingName_value STT_TIMEOUT = lit "stt-timeout".
Proof.
  apply (proj2 SettingName_value_round_trip (lit "stt-timeout") STT_TIMEOUT).
  reflexivity.
Defined.

End ParserWitnesses.

Section BufferHistory.
Import TranscriptionBufferProcessor.

(** X18.  A start signal makes a recording self-contained: whatever was
    delivered before it, from whatever state, the deliveries that
    follow it are processed exactly as by a freshly constructed
    buffer, so no text, speaker or language of an earlier recording can
    reach a later transcript. *)
Theorem start_signal_erases_history
    (self : t) (before after : list delivery)
    (now : str) (message : pyval) (direction : FrameDirection) :
  carries message (lit "start-recording") →
  run self (before
            ++ {| d_now := now; d_frame := InputTransportMessageFrame message;
                  d_direction := direction |} :: after)
  = ((run init after).1, (run self before).2 ++ (run init after).2).
Proof.
  intros Hstart. rewrite run_app.
  destruct (run self before) as [self1 out1].
  cbn [run d_now d_frame d_direction snd].
  rewrite (process_start _ _ _ _ Hstart).
  by destruct (run init after).
Qed.

Lemma start_signal_erases_history_witness :
  run (busy_buffer (lit "left over "))
    ([fragment (lit "from before") (lit "alice")]
     ++ {| d_now := lit "t1";
           d_frame := InputTransportMessageFrame (nested_envelope (lit "start-recording"));
           d_direction := DOWNSTREAM |}
        :: [fragment (lit "fresh") (lit "carol");
            {| d_now := lit "t2";
               d_frame := InputTransportMessageFrame (flat_envelope (lit "stop-recording"));
               d_direction := DOWNSTREAM |}])
  = ((run init [fragment (lit "fresh") (lit "carol");
                {| d_now := lit "t2";
                   d_frame := InputTransportMessageFrame
                                (flat_envelope (lit "stop-recording"));
                   d_direction := DOWNSTREAM |}]).1,
     (run (busy_buffer (lit "left over "))
        [fragment (lit "from before") (lit "alice")]).2
     ++ (run init [fragment (lit "fresh") (lit "carol");
                   {| d_now := lit "t2";
                      d_frame := InputTransportMessageFrame
                                   (flat_envelope (lit "stop-recording"));
                      d_direction := DOWNSTREAM |}]).2).
Proof.
  apply (start_signal_erases_history (busy_buffer (lit "left over "))
           [fragment (lit "from before") (lit "alice")]).
  reflexivity.
Defined.

End BufferHistory.
